(** * useGraphQL: the request hook of mkdm-usegraphql

    A shallow embedding of [src/src/index.tsx] (the TypeScript source) and of
    [src/lib/index.js] (the shipped build), with the properties of the request
    lifecycle stated over it.

    The asynchronous function [loadData] is embedded as a tree of setter calls
    and suspension points; an interpreter runs such a tree against a transport
    stub, a virtual clock and the three state cells of the hook. *)

From Stdlib Require Import String List Bool ZArith NArith Lia.
Import ListNotations.

Open Scope string_scope.
Open Scope list_scope.

Set Implicit Arguments.
Local Set Warnings "-register-all".

(** ** JavaScript values *)

(** The values that travel through the hook: JSON data, [undefined], and the
    error objects the host throws.  An object is the list of its own
    properties in insertion order. *)
Inductive JSValue : Type :=
| JUndefined
| JNull
| JBool (b : bool)
| JNum (n : Z)
| JStr (s : string)
| JArr (items : list JSValue)
| JObj (props : list (string * JSValue))
| JError (name message : string).

(** [ToBoolean], as used by [c ? a : b] and [if (c)]. *)
Definition truthy (v : JSValue) : bool :=
  match v with
  | JUndefined | JNull => false
  | JBool b => b
  | JNum n => negb (n =? 0)%Z
  | JStr s => negb (s =? "")
  | JArr _ | JObj _ | JError _ _ => true
  end.

Definition Obj := list (string * JSValue).

(** [o[k]] on own properties. *)
Fixpoint obj_get (k : string) (o : Obj) : option JSValue :=
  match o with
  | [] => None
  | (k', v) :: rest => if k' =? k then Some v else obj_get k rest
  end.

(** [o[k] = v]: an existing property keeps its position, a new one goes last. *)
Fixpoint obj_set (k : string) (v : JSValue) (o : Obj) : Obj :=
  match o with
  | [] => [(k, v)]
  | (k', v') :: rest =>
      if k' =? k then (k', v) :: rest else (k', v') :: obj_set k v rest
  end.

(** [{ ...target, ...src }]: the properties of [src] are set on [target] in
    order. *)
Definition obj_spread (target src : Obj) : Obj :=
  fold_left (fun acc kv => obj_set (fst kv) (snd kv) acc) src target.

(** [...headers] where [headers] may be [undefined]. *)
Definition spread_opt (target : Obj) (src : option Obj) : Obj :=
  match src with
  | Some o => obj_spread target o
  | None => target
  end.

(** A value or a thrown exception. *)
Inductive Settled (X : Type) : Type :=
| Fulfilled (x : X)
| Rejected (e : JSValue).
Arguments Fulfilled {X} x.
Arguments Rejected {X} e.

(** [rs.data]: reading a property of [null] or [undefined] throws a
    [TypeError]; primitives, arrays and error objects have no [data]. *)
Definition member_data (rs : JSValue) : Settled JSValue :=
  match rs with
  | JNull =>
      Rejected (JError "TypeError" "Cannot read properties of null (reading 'data')")
  | JUndefined =>
      Rejected (JError "TypeError" "Cannot read properties of undefined (reading 'data')")
  | JObj o =>
      match obj_get "data" o with
      | Some v => Fulfilled v
      | None => Fulfilled JUndefined
      end
  | _ => Fulfilled JUndefined
  end.

(** ** The host: requests, responses, promises *)

(** The text [JSON.stringify(v)], kept symbolic: serialization is the
    host's. *)
Inductive Body : Type :=
| JSON_stringify (v : JSValue).

Record RequestInit : Type := {
  method : string;
  headers : Obj;
  body : Body
}.

(** How a promise ends: it settles after some milliseconds, or never. *)
Inductive Settlement (X : Type) : Type :=
| Settles (after : N) (s : Settled X)
| NeverSettles.
Arguments Settles {X} after s.
Arguments NeverSettles {X}.

(** A response as the hook sees it: the status line, which the hook never
    reads, and what [req.json()] settles to. *)
Record Response : Type := {
  status : Z;
  json_result : Settlement JSValue
}.

(** The promises [loadData] awaits. *)
Inductive Promise : Type -> Type :=
| fetch (input : string) (init : RequestInit) : Promise Response
| timer (ms : N) : Promise JSValue
| json (req : Response) : Promise JSValue.

(** ** The hook's state cells *)

Record HookState : Type := {
  loading : bool;
  error : JSValue;
  data : JSValue
}.

(** [useState(false)], [useState(null)], [useState(null)]. *)
Definition initial : HookState :=
  {| loading := false; error := JNull; data := JNull |}.

Inductive Write : Type :=
| SetLoading (b : bool)
| SetError (e : JSValue)
| SetData (d : JSValue).

Definition apply_write (w : Write) (s : HookState) : HookState :=
  match w with
  | SetLoading b => {| loading := b; error := error s; data := data s |}
  | SetError e => {| loading := loading s; error := e; data := data s |}
  | SetData d => {| loading := loading s; error := error s; data := d |}
  end.

(** ** Asynchronous functions *)

(** The body of an [async] function: it returns, throws, calls a state
    setter, or suspends on a promise and resumes with its settlement. *)
Inductive Async (A : Type) : Type :=
| Return (a : A)
| Throw (e : JSValue)
| Call (w : Write) (k : Async A)
| Await (X : Type) (p : Promise X) (k : Settled X -> Async A).
Arguments Return {A} a.
Arguments Throw {A} e.
Arguments Call {A} w k.
Arguments Await {A X} p k.

Fixpoint bind {A B : Type} (m : Async A) (f : A -> Async B) : Async B :=
  match m with
  | Return a => f a
  | Throw e => Throw e
  | Call w k => Call w (bind k f)
  | Await p k => Await p (fun s => bind (k s) f)
  end.

(** [try { m } catch (e) { h e }] *)
Fixpoint try_catch {A : Type} (m : Async A) (h : JSValue -> Async A) : Async A :=
  match m with
  | Return a => Return a
  | Throw e => h e
  | Call w k => Call w (try_catch k h)
  | Await p k => Await p (fun s => try_catch (k s) h)
  end.

(** [await p]: a rejection is thrown at the suspension point. *)
Definition await {X : Type} (p : Promise X) : Async X :=
  Await p (fun s => match s with
                    | Fulfilled x => Return x
                    | Rejected e => Throw e
                    end).

(** An expression that may throw. *)
Definition eval {X : Type} (r : Settled X) : Async X :=
  match r with
  | Fulfilled x => Return x
  | Rejected e => Throw e
  end.

Definition setLoading (b : bool) : Async unit := Call (SetLoading b) (Return tt).
Definition setError (e : JSValue) : Async unit := Call (SetError e) (Return tt).
Definition setData (d : JSValue) : Async unit := Call (SetData d) (Return tt).

Declare Scope async_scope.
Delimit Scope async_scope with async.
Notation "x <- m ;; k" := (bind m (fun x => k))
  (at level 61, m at next level, right associativity) : async_scope.
Notation "m ;; k" := (bind m (fun _ => k))
  (at level 61, right associativity) : async_scope.
Open Scope async_scope.

(** ** Configuration and props *)

(** [GraphQLContextType]. *)
Record GraphQLContextType : Type := {
  endpoint : string;
  ctx_headers : option Obj
}.

(** [createContext({ endpoint: "", headers: {} })] *)
Definition GraphQLContext_default : GraphQLContextType :=
  {| endpoint := ""; ctx_headers := Some [] |}.

(** The argument of [useGraphQL]. *)
Record Props : Type := {
  query : string;
  variables : JSValue;
  loadOnStart : bool
}.

(** What one render of the hook closes over. *)
Record Render : Type := {
  context : GraphQLContextType;
  props : Props
}.

(** [reset], the same in both files. *)
Definition reset : Async JSValue :=
  setLoading false ;;
  setError JNull ;;
  setData JNull ;;
  Return JUndefined.

(** ** The effect hook and the value handed to the consumer *)

(** The calls an effect makes; [loadData_call r vars] is [loadData(vars)]
    with the closure of render [r]. *)
Inductive HookCall : Type :=
| loadData_call (r : Render) (vars : JSValue)
| reset_call.

(** [useEffect(() => { on_commit; return () => cleanup }, deps)].  The
    dependency arrays of this hook hold booleans only. *)
Record Effect : Type := {
  on_commit : list HookCall;
  cleanup : list HookCall;
  deps : list bool
}.

(** A value the hook returns: state, a function, or a container of both. *)
Inductive Exported : Type :=
| XValue (v : JSValue)
| XFunction (f : JSValue -> Async JSValue)
| XArray (items : list Exported)
| XObject (fields : list (string * Exported)).

(** [Array.isArray] *)
Definition is_array (x : Exported) : bool :=
  match x with
  | XArray _ => true
  | _ => false
  end.

(** [const [a, b] = x]: only an iterable can be destructured so. *)
Definition destructure_pair (x : Exported) : Settled (Exported * Exported) :=
  match x with
  | XArray (a :: b :: _) => Fulfilled (a, b)
  | XArray [a] => Fulfilled (a, XValue JUndefined)
  | XArray [] => Fulfilled (XValue JUndefined, XValue JUndefined)
  | _ => Rejected (JError "TypeError" "object is not iterable")
  end.

(** ** src/src/index.tsx *)
Module Src.

Definition loadData (r : Render) (vars : JSValue) : Async JSValue :=
  try_catch
    (let params := if truthy vars then vars else variables (props r) in
     let packet :=
       JObj [("query", JStr (query (props r))); ("variables", params)] in
     setLoading true ;;
     req <- await (fetch (endpoint (context r))
                     {| method := "post";
                        headers :=
                          spread_opt
                            [("Content-Type", JStr "application/json")]
                            (ctx_headers (context r));
                        body := JSON_stringify packet |}) ;;
     _ <- await (timer 3000) ;;
     rs <- await (json req) ;;
     d <- eval (member_data rs) ;;
     setData d ;;
     setLoading false ;;
     Return JUndefined)
    (fun error => setError error ;; Return JUndefined).

(** [useEffect(..., [props.loadOnStart])] *)
Definition effect (r : Render) : Effect :=
  {| on_commit :=
       if loadOnStart (props r) then [loadData_call r JUndefined] else [];
     cleanup := [reset_call];
     deps := [loadOnStart (props r)] |}.

Definition useGraphQL (r : Render) (s : HookState) : Exported :=
  XArray
    [XFunction (loadData r);
     XObject [("data", XValue (data s));
              ("loading", XValue (JBool (loading s)));
              ("reset", XFunction (fun _ => reset));
              ("error", XValue (error s))]].

End Src.

(** ** src/lib/index.js *)
Module Lib.

Definition loadData (r : Render) (vars : JSValue) : Async JSValue :=
  try_catch
    (let params := if truthy vars then vars else variables (props r) in
     let packet :=
       JObj [("query", JStr (query (props r))); ("variables", params)] in
     setLoading true ;;
     req <- await (fetch (endpoint (context r))
                     {| method := "post";
                        headers :=
                          spread_opt
                            [("Content-Type", JStr "application/json")]
                            (ctx_headers (context r));
                        body := JSON_stringify packet |}) ;;
     rs <- await (json req) ;;
     d <- eval (member_data rs) ;;
     setData d ;;
     setLoading false ;;
     Return JUndefined)
    (fun error => setError error ;; Return JUndefined).

(** [useEffect(..., [])] *)
Definition effect (r : Render) : Effect :=
  {| on_commit :=
       if truthy (variables (props r)) then [loadData_call r JUndefined] else [];
     cleanup := [reset_call];
     deps := [] |}.

Definition useGraphQL (r : Render) (s : HookState) : Exported :=
  XObject [("loadData", XFunction (loadData r));
           ("data", XValue (data s));
           ("reset", XFunction (fun _ => reset));
           ("error", XValue (error s));
           ("loading", XValue (JBool (loading s)))].

End Lib.

(** ** Running an asynchronous function *)

(** The environment of a run: the transport behind [fetch], and by how much
    a timer fires late (it never fires early). *)
Record Env : Type := {
  net : string -> RequestInit -> Settlement Response;
  timer_lag : N
}.

Definition settle (env : Env) {X : Type} (p : Promise X) : Settlement X :=
  match p in Promise T return Settlement T with
  | fetch input init => net env input init
  | timer ms => Settles (ms + timer_lag env) (Fulfilled (JNum 0))
  | json req => json_result req
  end.

Inductive Awaited : Type :=
| AFetch (input : string) (init : RequestInit)
| ATimer (ms : N)
| AJson (req : Response).

Definition describe {X : Type} (p : Promise X) : Awaited :=
  match p with
  | fetch input init => AFetch input init
  | timer ms => ATimer ms
  | json req => AJson req
  end.

(** What an observer of the hook can see happen, each stamped with the
    virtual time in milliseconds. *)
Inductive Event : Type :=
| Wrote (w : Write)
| Began (a : Awaited)
| Ended (a : Awaited).

Record World : Type := {
  hook : HookState;
  now : N;
  trace : list (N * Event)
}.

Definition fresh : World := {| hook := initial; now := 0; trace := [] |}.

Definition log (ev : Event) (w : World) : World :=
  {| hook := hook w; now := now w; trace := trace w ++ [(now w, ev)] |}.

Definition write (wr : Write) (w : World) : World :=
  log (Wrote wr)
      {| hook := apply_write wr (hook w); now := now w; trace := trace w |}.

Definition tick (dt : N) (w : World) : World :=
  {| hook := hook w; now := now w + dt; trace := trace w |}.

(** How the promise returned by an [async] function ends. *)
Inductive Completion (A : Type) : Type :=
| Resolved (a : A)
| RejectedWith (e : JSValue)
| StillPending.
Arguments Resolved {A} a.
Arguments RejectedWith {A} e.
Arguments StillPending {A}.

Fixpoint run {A : Type} (env : Env) (m : Async A) (w : World)
  : Completion A * World :=
  match m with
  | Return a => (Resolved a, w)
  | Throw e => (RejectedWith e, w)
  | Call wr k => run env k (write wr w)
  | Await p k =>
      let w1 := log (Began (describe p)) w in
      match settle env p with
      | Settles dt s => run env (k s) (log (Ended (describe p)) (tick dt w1))
      | NeverSettles => (StillPending, w1)
      end
  end.

(** The part of a call that runs before control returns to the caller: the
    setter calls up to the first suspension, and the promise awaited there. *)
Fixpoint sync_part {A : Type} (m : Async A) : list Write * option Awaited :=
  match m with
  | Return _ | Throw _ => ([], None)
  | Call wr k => let (ws, a) := sync_part k in (wr :: ws, a)
  | Await p _ => ([], Some (describe p))
  end.

Definition apply_writes (ws : list Write) (s : HookState) : HookState :=
  fold_left (fun acc wr => apply_write wr acc) ws s.

(** The requests a trace shows leaving. *)
Fixpoint requests (t : list (N * Event)) : list (string * RequestInit) :=
  match t with
  | [] => []
  | (_, Began (AFetch input init)) :: rest => (input, init) :: requests rest
  | _ :: rest => requests rest
  end.

(** The hook state an observer sees at time [t]: the writes stamped [t] or
    earlier, applied to the state the trace started from. *)
Fixpoint state_at (t : N) (tr : list (N * Event)) (s : HookState) : HookState :=
  match tr with
  | [] => s
  | (t', Wrote wr) :: rest =>
      if (t' <=? t)%N then state_at t rest (apply_write wr s) else s
  | _ :: rest => state_at t rest s
  end.

(** When an event first shows in a trace. *)
Fixpoint time_of (p : Event -> bool) (tr : list (N * Event)) : option N :=
  match tr with
  | [] => None
  | (t, ev) :: rest => if p ev then Some t else time_of p rest
  end.

Definition data_written (ev : Event) : bool :=
  match ev with Wrote (SetData _) => true | _ => false end.

Definition timer_began (ev : Event) : bool :=
  match ev with Began (ATimer _) => true | _ => false end.

(** *** React's schedule for an effect *)

(** Dependencies are compared position by position. *)
Definition deps_changed (old new : list bool) : bool :=
  existsb (fun ab => xorb (fst ab) (snd ab)) (combine old new).

(** On activation the effect of the first render runs. *)
Definition mount (e : Effect) : list HookCall * Effect :=
  (on_commit e, e).

(** On a later render the effect runs again only if its dependencies
    changed, after the cleanup of the effect it replaces. *)
Definition rerender (committed e : Effect) : list HookCall * Effect :=
  if deps_changed (deps committed) (deps e)
  then (cleanup committed ++ on_commit e, e)
  else ([], committed).

(** On deactivation the cleanup of the committed effect runs. *)
Definition unmount (committed : Effect) : list HookCall :=
  cleanup committed.

Fixpoint rerenders (effect : Render -> Effect) (committed : Effect)
                   (rs : list Render) : list HookCall * Effect :=
  match rs with
  | [] => ([], committed)
  | r :: rest =>
      let (calls, committed') := rerender committed (effect r) in
      let (later, final) := rerenders effect committed' rest in
      (calls ++ later, final)
  end.

(** The calls made without the consumer asking while an instance is live:
    it activates with render [r0] and then renders again with [rs]. *)
Definition while_live (effect : Render -> Effect) (r0 : Render)
                      (rs : list Render) : list HookCall * Effect :=
  let (calls, committed) := mount (effect r0) in
  let (later, final) := rerenders effect committed rs in
  (calls ++ later, final).

Definition automatic_calls effect r0 rs : list HookCall :=
  fst (while_live effect r0 rs).

Definition deactivation_calls effect r0 rs : list HookCall :=
  unmount (snd (while_live effect r0 rs)).

(** Running hook calls one after the other with a given [loadData]. *)
Definition perform (loadData : Render -> JSValue -> Async JSValue)
                   (c : HookCall) : Async JSValue :=
  match c with
  | loadData_call r vars => loadData r vars
  | reset_call => reset
  end.

Definition run_calls (env : Env) (loadData : Render -> JSValue -> Async JSValue)
                     (cs : list HookCall) (w : World) : World :=
  fold_left (fun acc c => snd (run env (perform loadData c) acc)) cs w.

(** ** Derived notions used in the statements *)

(** The variables a call sends: [vars ? vars : props.variables]. *)
Definition params_of (r : Render) (vars : JSValue) : JSValue :=
  if truthy vars then vars else variables (props r).

(** A world that starts observing at time [t0] in state [s]. *)
Definition start (s : HookState) (t0 : N) : World :=
  {| hook := s; now := t0; trace := [] |}.

(** The two shipped implementations of [loadData]. *)
Definition implementations : list (Render -> JSValue -> Async JSValue) :=
  [Src.loadData; Lib.loadData].

(** A call's request path fails with [e]: [fetch] rejects, [req.json()]
    rejects, or reading [rs.data] throws. *)
Inductive Fails (env : Env) (input : string) (init : RequestInit)
                (e : JSValue) : Prop :=
| fetch_rejects (dt : N) :
    net env input init = Settles dt (Rejected e) ->
    Fails env input init e
| json_rejects (dt dt' : N) (resp : Response) :
    net env input init = Settles dt (Fulfilled resp) ->
    json_result resp = Settles dt' (Rejected e) ->
    Fails env input init e
| member_throws (dt dt' : N) (resp : Response) (rs : JSValue) :
    net env input init = Settles dt (Fulfilled resp) ->
    json_result resp = Settles dt' (Fulfilled rs) ->
    member_data rs = Rejected e ->
    Fails env input init e.

(** The headers a provider configured, [undefined] spreading as nothing. *)
Definition configured (c : GraphQLContextType) : Obj :=
  match ctx_headers c with
  | Some o => o
  | None => []
  end.

(** *** Sample inputs *)

Definition ping : Render :=
  {| context := {| endpoint := "https://yourdomain.com/graphql";
                   ctx_headers := Some [("Authorization", JStr "X")] |};
     props := {| query := "{ping}"; variables := JObj []; loadOnStart := true |} |}.

Definition by_id : Render :=
  {| context := {| endpoint := "https://yourdomain.com/graphql";
                   ctx_headers := None |};
     props := {| query := "query($id:Int){user(id:$id){name}}";
                 variables := JObj [("id", JNum 1)];
                 loadOnStart := true |} |}.

(** A render that asks for no automatic load. *)
Definition manual : Render :=
  {| context := GraphQLContext_default;
     props := {| query := "{ping}"; variables := JObj []; loadOnStart := false |} |}.

Definition respond (code : Z) (after : N) (outcome : Settled JSValue) : Response :=
  {| status := code; json_result := Settles after outcome |}.

(** A transport stub that answers every request with [{"data":{"ping":"pong"}}]. *)
Definition pong_env : Env :=
  {| net := fun _ _ =>
       Settles 20 (Fulfilled
         (respond 200 1
            (Fulfilled (JObj [("data", JObj [("ping", JStr "pong")])]))));
     timer_lag := 0 |}.

(** A transport stub that rejects every request. *)
Definition offline_env : Env :=
  {| net := fun _ _ => Settles 5 (Rejected (JError "TypeError" "Failed to fetch"));
     timer_lag := 0 |}.

(** A transport stub whose body is the JSON text [null]. *)
Definition null_env : Env :=
  {| net := fun _ _ => Settles 20 (Fulfilled (respond 200 1 (Fulfilled JNull)));
     timer_lag := 0 |}.

(** A hook that holds the outcome of earlier calls. *)
Definition stale : World :=
  start {| loading := false;
           error := JError "TypeError" "Failed to fetch";
           data := JObj [("user", JObj [("name", JStr "Ada")])] |} 100.

(** A transport stub that never answers. *)
Definition silent_env : Env :=
  {| net := fun _ _ => NeverSettles; timer_lag := 0 |}.

(** ** The provider *)

(** The props of [GraphQLProvider] that reach the context; [headers] is
    optional. *)
Record ProviderProps : Type := {
  provided_endpoint : string;
  provided_headers : option Obj
}.

(** [<GraphQLContext.Provider value={{ endpoint: props.endpoint,
    headers: props.headers }}>]: the value a provider hands down. *)
Definition GraphQLProvider (p : ProviderProps) : GraphQLContextType :=
  {| endpoint := provided_endpoint p; ctx_headers := provided_headers p |}.

(** [useContext(GraphQLContext)] for a consumer whose enclosing providers
    are [enclosing], the nearest first: the nearest provider's value, or the
    default of [createContext]. *)
Definition useContext (enclosing : list ProviderProps) : GraphQLContextType :=
  match enclosing with
  | [] => GraphQLContext_default
  | p :: _ => GraphQLProvider p
  end.

(** The closure of one render of [useGraphQL(props)] below [enclosing]. *)
Definition render_under (enclosing : list ProviderProps) (p : Props) : Render :=
  {| context := useContext enclosing; props := p |}.

(** ** Calls that overlap *)

(** A call between two turns of the event loop: settled, or parked on a
    promise with the rest of its body. *)
Inductive Task (A : Type) : Type :=
| Finished (c : Completion A)
| Suspended (X : Type) (p : Promise X) (k : Settled X -> Async A).
Arguments Finished {A} c.
Arguments Suspended {A X} p k.

(** Run a body up to its next suspension. *)
Fixpoint advance {A : Type} (m : Async A) (s : HookState) : Task A * HookState :=
  match m with
  | Return a => (Finished (Resolved a), s)
  | Throw e => (Finished (RejectedWith e), s)
  | Call wr k => advance k (apply_write wr s)
  | Await p k => (Suspended p k, s)
  end.

(** The promise a task is parked on settles and the task runs on. *)
Definition resume {A : Type} (env : Env) (t : Task A) (s : HookState)
  : Task A * HookState :=
  match t with
  | Finished _ => (t, s)
  | Suspended p k =>
      match settle env p with
      | Settles _ r => advance (k r) s
      | NeverSettles => (t, s)
      end
  end.

(** Resume a task [n] times in a row. *)
Fixpoint drive {A : Type} (env : Env) (n : nat) (t : Task A) (s : HookState)
  : Task A * HookState :=
  match n with
  | O => (t, s)
  | S n' => let (t', s') := resume env t s in drive env n' t' s'
  end.

(** What can happen to a live hook instance: the consumer (or the effect)
    makes a call, or the promise of the [i]-th call made so far settles. *)
Inductive Turn : Type :=
| Invoke (c : HookCall)
| Settle (i : nat).

Record Instance : Type := {
  cells : HookState;
  calls : list (Task JSValue)
}.

Fixpoint set_nth {T : Type} (i : nat) (x : T) (l : list T) : list T :=
  match l, i with
  | [], _ => []
  | _ :: rest, O => x :: rest
  | y :: rest, S i' => y :: set_nth i' x rest
  end.

Definition turn (env : Env) (loadData : Render -> JSValue -> Async JSValue)
                (t : Turn) (inst : Instance) : Instance :=
  match t with
  | Invoke c =>
      let (task, s) := advance (perform loadData c) (cells inst) in
      {| cells := s; calls := calls inst ++ [task] |}
  | Settle i =>
      match nth_error (calls inst) i with
      | Some task =>
          let (task', s) := resume env task (cells inst) in
          {| cells := s; calls := set_nth i task' (calls inst) |}
      | None => inst
      end
  end.

Definition play (env : Env) (loadData : Render -> JSValue -> Async JSValue)
                (ts : list Turn) (inst : Instance) : Instance :=
  fold_left (fun acc t => turn env loadData t acc) ts inst.

(** An instance in state [s] with no call made yet. *)
Definition idle (s : HookState) : Instance := {| cells := s; calls := [] |}.

(** Enough turns for the [i]-th call to run to its end: a call suspends at
    most three times. *)
Definition complete (i : nat) : list Turn := repeat (Settle i) 3.

(** The call [loadData(vars)] of render [r] is answered, and the payload's
    [data] member reads [d]. *)
Definition Answered (env : Env) (loadData : Render -> JSValue -> Async JSValue)
                    (r : Render) (vars : JSValue) (d : JSValue) : Prop :=
  exists input init dt dt' resp rs,
    snd (sync_part (loadData r vars)) = Some (AFetch input init) /\
    net env input init = Settles dt (Fulfilled resp) /\
    json_result resp = Settles dt' (Fulfilled rs) /\
    member_data rs = Fulfilled d.

(** The request path of the call [loadData(vars)] of render [r] fails with
    [e]. *)
Definition Failed (env : Env) (loadData : Render -> JSValue -> Async JSValue)
                  (r : Render) (vars : JSValue) (e : JSValue) : Prop :=
  exists input init,
    snd (sync_part (loadData r vars)) = Some (AFetch input init) /\
    Fails env input init e.

(** A transport stub that answers a request for user 1 with Ada, and any
    other request with Grace. *)
Definition users_env : Env :=
  {| net := fun _ init =>
       match body init with
       | JSON_stringify (JObj [(_, _); (_, JObj [(_, JNum 1)])]) =>
           Settles 300 (Fulfilled
             (respond 200 1 (Fulfilled
                (JObj [("data", JObj [("user", JObj [("name", JStr "Ada")])])]))))
       | _ =>
           Settles 20 (Fulfilled
             (respond 200 1 (Fulfilled
                (JObj [("data", JObj [("user", JObj [("name", JStr "Grace")])])]))))
       end;
     timer_lag := 0 |}.

(** A transport stub that rejects a request for user 1 and answers any
    other with Grace. *)
Definition flaky_env : Env :=
  {| net := fun _ init =>
       match body init with
       | JSON_stringify (JObj [(_, _); (_, JObj [(_, JNum 1)])]) =>
           Settles 300 (Rejected (JError "TypeError" "Failed to fetch"))
       | _ =>
           Settles 20 (Fulfilled
             (respond 200 1 (Fulfilled
                (JObj [("data", JObj [("user", JObj [("name", JStr "Grace")])])]))))
       end;
     timer_lag := 0 |}.

(** A transport stub that answers with status 500 and a JSON body. *)
Definition failing_server_env : Env :=
  {| net := fun _ _ =>
       Settles 20 (Fulfilled
         (respond 500 1
            (Fulfilled (JObj [("errors", JArr [JStr "boom"]); ("data", JNull)]))));
     timer_lag := 0 |}.

(** The transport [env] with the status of every response replaced by
    [code]. *)
Definition with_status (code : Z) (env : Env) : Env :=
  {| net := fun input init =>
       match net env input init with
       | Settles dt (Fulfilled resp) =>
           Settles dt (Fulfilled {| status := code;
                                    json_result := json_result resp |})
       | other => other
       end;
     timer_lag := timer_lag env |}.

(** * Properties *)

(** ** Objects *)

Lemma obj_get_set_same k v o : obj_get k (obj_set k v o) = Some v.
Proof.
  induction o as [| [k' v'] rest IH]; simpl.
  - now rewrite String.eqb_refl.
  - destruct (k' =? k) eqn:E; simpl; rewrite E; auto.
Qed.

Lemma obj_get_set_other k k' v o :
  k' <> k -> obj_get k (obj_set k' v o) = obj_get k o.
Proof.
  intros Hne.
  assert (Hf : (k' =? k) = false) by now apply String.eqb_neq.
  induction o as [| [k0 v0] rest IH]; simpl.
  - now rewrite Hf.
  - destruct (k0 =? k') eqn:E; simpl.
    + apply String.eqb_eq in E; subst k0. now rewrite Hf.
    + destruct (k0 =? k); auto.
Qed.

Lemma obj_get_absent k o : ~ In k (map fst o) -> obj_get k o = None.
Proof.
  induction o as [| [k' v'] rest IH]; simpl; intros Hn; auto.
  destruct (k' =? k) eqn:E.
  - apply String.eqb_eq in E. tauto.
  - apply IH. tauto.
Qed.

(** A spread property shadows the property of the same name written before
    it; the others stay. *)
Lemma obj_get_spread k src : forall target,
  NoDup (map fst src) ->
  obj_get k (obj_spread target src) =
  match obj_get k src with
  | Some v => Some v
  | None => obj_get k target
  end.
Proof.
  unfold obj_spread.
  induction src as [| [k1 v1] rest IH]; intros target Hnd; simpl; auto.
  inversion Hnd as [| ? ? Hnotin Hrest]; subst.
  rewrite IH by assumption.
  destruct (k1 =? k) eqn:E.
  - apply String.eqb_eq in E; subst k1.
    rewrite (obj_get_absent _ _ Hnotin). apply obj_get_set_same.
  - apply String.eqb_neq in E.
    destruct (obj_get k rest); auto using obj_get_set_other.
Qed.

(** ** Traces *)

Lemma requests_app t1 t2 : requests (t1 ++ t2) = requests t1 ++ requests t2.
Proof.
  induction t1 as [| [t ev] rest IH]; simpl; auto.
  destruct ev as [w | a | a]; auto.
  destruct a; simpl; auto. now rewrite IH.
Qed.

(** A run only ever adds to the trace. *)
Lemma run_extends_trace {A : Type} (env : Env) (m : Async A) :
  forall w, exists added, trace (snd (run env m w)) = trace w ++ added.
Proof.
  induction m as [a | e | wr k IH | X p k IH]; intros w; simpl.
  - exists []. now rewrite app_nil_r.
  - exists []. now rewrite app_nil_r.
  - destruct (IH (write wr w)) as [added H]. rewrite H. simpl.
    rewrite <- app_assoc. eauto.
  - destruct (settle env p) as [dt s |].
    + destruct (IH s (log (Ended (describe p)) (tick dt (log (Began (describe p)) w))))
        as [added H].
      rewrite H. simpl. rewrite <- !app_assoc. eauto.
    + simpl. eauto.
Qed.

(** Time does not run backwards during a run. *)
Lemma run_clock_monotone {A : Type} (env : Env) (m : Async A) :
  forall w, (now w <= now (snd (run env m w)))%N.
Proof.
  induction m as [a | e | wr k IH | X p k IH]; intros w; simpl; try lia.
  - specialize (IH (write wr w)). simpl in IH. exact IH.
  - destruct (settle env p) as [dt s |]; simpl; try lia.
    specialize (IH s (log (Ended (describe p)) (tick dt (log (Began (describe p)) w)))).
    simpl in IH. lia.
Qed.

Ltac both_implementations H :=
  destruct H as [<- | [<- | []]].

(** ** reset *)

(** C8: [reset()] always leaves the state [{loading: false, error: null,
    data: null}], from whatever state it is called in, and calling it a
    second time changes nothing. *)
Theorem reset_idempotent (env : Env) (w : World) :
  let once := snd (run env reset w) in
  let twice := snd (run env reset once) in
  hook once = {| loading := false; error := JNull; data := JNull |} /\
  hook twice = hook once /\
  fst (run env reset w) = Resolved JUndefined.
Proof.
  simpl. repeat split.
Qed.

(** ** loadData *)

(** Every call first calls [setLoading(true)] and then suspends on
    [fetch]. *)
Lemma loadData_sync_part L r vars :
  In L implementations ->
  sync_part (L r vars) =
  ([SetLoading true],
   Some (AFetch (endpoint (context r))
           {| method := "post";
              headers := spread_opt [("Content-Type", JStr "application/json")]
                                    (ctx_headers (context r));
              body := JSON_stringify
                        (JObj [("query", JStr (query (props r)));
                               ("variables", params_of r vars)]) |})).
Proof.
  intros HL. both_implementations HL; reflexivity.
Qed.

Ltac name_request Hsync :=
  match type of Hsync with
  | snd (sync_part (?L ?r ?vars)) = _ =>
      let HL := fresh in
      assert (HL : In L implementations) by (simpl; tauto);
      rewrite (loadData_sync_part r vars HL) in Hsync;
      simpl in Hsync;
      injection Hsync as <- <-;
      clear HL
  end.

(** C1: when the request path of a call fails, the thrown value ends up in
    [error], [loading] stays [true], and [data] keeps its prior value. *)
Theorem failure_sets_error_only L r vars env w input init e :
  In L implementations ->
  snd (sync_part (L r vars)) = Some (AFetch input init) ->
  Fails env input init e ->
  hook (snd (run env (L r vars) w)) =
    {| loading := true; error := e; data := data (hook w) |} /\
  fst (run env (L r vars) w) = Resolved JUndefined.
Proof.
  intros HL Hsync Hfail.
  both_implementations HL; name_request Hsync;
    destruct Hfail as [dt Hnet | dt dt' resp Hnet Hjson
                       | dt dt' resp rs Hnet Hjson Hmember];
    cbn; fold (params_of r vars); rewrite Hnet; cbn;
    rewrite ?Hjson; cbn; rewrite ?Hmember; cbn; auto.
Qed.

Lemma failure_sets_error_only_witness :
  In Src.loadData implementations /\
  Fails offline_env (endpoint (context ping))
        {| method := "post";
           headers := [("Content-Type", JStr "application/json");
                       ("Authorization", JStr "X")];
           body := JSON_stringify
                     (JObj [("query", JStr "{ping}"); ("variables", JObj [])]) |}
        (JError "TypeError" "Failed to fetch") /\
  hook (snd (run offline_env (Src.loadData ping JUndefined) fresh)) =
    {| loading := true;
       error := JError "TypeError" "Failed to fetch";
       data := JNull |}.
Proof.
  assert (HL : In Src.loadData implementations) by (simpl; tauto).
  assert (Hfail : Fails offline_env (endpoint (context ping))
        {| method := "post";
           headers := [("Content-Type", JStr "application/json");
                       ("Authorization", JStr "X")];
           body := JSON_stringify
                     (JObj [("query", JStr "{ping}"); ("variables", JObj [])]) |}
        (JError "TypeError" "Failed to fetch"))
    by (apply fetch_rejects with (dt := 5%N); reflexivity).
  split; [exact HL | split; [exact Hfail |]].
  exact (proj1 (failure_sets_error_only ping JUndefined fresh HL eq_refl Hfail)).
Defined.

(** C5: whatever the transport does, the promise a call returns is never
    rejected: it resolves with [undefined], or stays pending with the
    request. *)
Theorem loadData_never_rejects :
  forall (env : Env) (r : Render) (vars : JSValue) (w : World),
    (fst (run env (Src.loadData r vars) w) = Resolved JUndefined \/
     fst (run env (Src.loadData r vars) w) = StillPending) /\
    (fst (run env (Lib.loadData r vars) w) = Resolved JUndefined \/
     fst (run env (Lib.loadData r vars) w) = StillPending).
Proof.
  intros env r vars w.
  split; cbn;
    (destruct (net env _ _) as [dt [resp | e] |]; cbn; auto;
     destruct (json_result resp) as [dt' [rs | e] |]; cbn; auto;
     destruct (member_data rs) as [d | e]; cbn; auto).
Qed.

(** The state a call leaves when its transport succeeds and the payload
    has members to read. *)
Lemma success_state L r vars env w input init dt dt' resp rs d :
  In L implementations ->
  snd (sync_part (L r vars)) = Some (AFetch input init) ->
  net env input init = Settles dt (Fulfilled resp) ->
  json_result resp = Settles dt' (Fulfilled rs) ->
  member_data rs = Fulfilled d ->
  hook (snd (run env (L r vars) w)) =
    {| loading := false; error := error (hook w); data := d |}.
Proof.
  intros HL Hsync Hnet Hjson Hmember.
  both_implementations HL; name_request Hsync;
    cbn; fold (params_of r vars); rewrite Hnet; cbn;
    rewrite Hjson; cbn; rewrite Hmember; cbn; auto.
Qed.

(** C4, as amended: when the transport succeeds and the body parses to a
    JSON value other than [null], the call sets [data] to the payload's
    [data] member ([undefined] if it has none), sets [loading] to [false]
    and leaves [error] as it was. *)
Theorem success_sets_data_and_clears_loading
    L r vars env w input init dt dt' resp rs :
  In L implementations ->
  snd (sync_part (L r vars)) = Some (AFetch input init) ->
  net env input init = Settles dt (Fulfilled resp) ->
  json_result resp = Settles dt' (Fulfilled rs) ->
  rs <> JNull ->
  rs <> JUndefined ->
  exists d,
    member_data rs = Fulfilled d /\
    hook (snd (run env (L r vars) w)) =
      {| loading := false; error := error (hook w); data := d |}.
Proof.
  intros HL Hsync Hnet Hjson Hnull Hundef.
  assert (Hd : exists d, member_data rs = Fulfilled d).
  { destruct rs; simpl; try congruence; eauto.
    destruct (obj_get "data" props0); eauto. }
  destruct Hd as [d Hd]. exists d. split; auto.
  eapply success_state; eauto.
Qed.

(** The round trip of the spec: a fresh hook with query [{ping}] and a
    transport answering [{"data":{"ping":"pong"}}]. *)
Lemma success_sets_data_and_clears_loading_witness :
  In Src.loadData implementations /\
  JObj [("data", JObj [("ping", JStr "pong")])] <> JNull /\
  JObj [("data", JObj [("ping", JStr "pong")])] <> JUndefined /\
  hook (snd (run pong_env (Src.loadData ping JUndefined) fresh)) =
    {| loading := false; error := JNull; data := JObj [("ping", JStr "pong")] |}.
Proof.
  assert (HL : In Src.loadData implementations) by (simpl; tauto).
  assert (H1 : JObj [("data", JObj [("ping", JStr "pong")])] <> JNull)
    by discriminate.
  assert (H2 : JObj [("data", JObj [("ping", JStr "pong")])] <> JUndefined)
    by discriminate.
  repeat (split; [assumption |]).
  destruct (@success_sets_data_and_clears_loading
              Src.loadData ping JUndefined pong_env fresh _ _ 20%N 1%N
              (respond 200 1
                 (Fulfilled (JObj [("data", JObj [("ping", JStr "pong")])])))
              _ HL eq_refl eq_refl eq_refl H1 H2) as [d [Hd Hs]].
  injection Hd as <-. exact Hs.
Defined.

(** C4, as stated, fails: the body [null] parses as JSON, yet the call ends
    on the failure path, with [loading] still [true] and [data] not set. *)
Lemma null_payload_counterexample :
  net null_env (endpoint (context ping))
      {| method := "post";
         headers := [("Content-Type", JStr "application/json");
                     ("Authorization", JStr "X")];
         body := JSON_stringify
                   (JObj [("query", JStr "{ping}"); ("variables", JObj [])]) |}
    = Settles 20 (Fulfilled (respond 200 1 (Fulfilled JNull))) /\
  hook (snd (run null_env (Src.loadData ping JUndefined) fresh)) =
    {| loading := true;
       error := JError "TypeError"
                       "Cannot read properties of null (reading 'data')";
       data := JNull |} /\
  hook (snd (run null_env (Lib.loadData ping JUndefined) fresh)) =
    {| loading := true;
       error := JError "TypeError"
                       "Cannot read properties of null (reading 'data')";
       data := JNull |}.
Proof.
  repeat split.
Qed.

(** Every call sends exactly one request, whatever becomes of it. *)
Lemma loadData_requests L r vars env w :
  In L implementations ->
  requests (trace (snd (run env (L r vars) w))) =
  requests (trace w) ++
  [(endpoint (context r),
    {| method := "post";
       headers := spread_opt [("Content-Type", JStr "application/json")]
                             (ctx_headers (context r));
       body := JSON_stringify
                 (JObj [("query", JStr (query (props r)));
                        ("variables", params_of r vars)]) |})].
Proof.
  intros HL.
  both_implementations HL; cbn; fold (params_of r vars);
    (destruct (net env _ _) as [dt [resp | e] |]; cbn;
     [ destruct (json_result resp) as [dt' [rs | e] |]; cbn;
       [ destruct (member_data rs) as [d | e]; cbn | | ] | | ]);
    repeat rewrite requests_app; cbn;
    repeat rewrite app_nil_r; reflexivity.
Qed.

(** C6: a call starts by setting [loading] and nothing else: up to the
    suspension on the transport the only setter called is
    [setLoading(true)], so [error] and [data] are as they were, and they
    stay so for as long as the transport has not answered. *)
Theorem call_start_touches_loading_only L r vars :
  In L implementations ->
  fst (sync_part (L r vars)) = [SetLoading true] /\
  (forall s, apply_writes (fst (sync_part (L r vars))) s =
             {| loading := true; error := error s; data := data s |}) /\
  exists input init,
    snd (sync_part (L r vars)) = Some (AFetch input init) /\
    forall env w,
      net env input init = NeverSettles ->
      hook (snd (run env (L r vars) w)) =
        {| loading := true; error := error (hook w); data := data (hook w) |}.
Proof.
  intros HL.
  rewrite (loadData_sync_part r vars HL). cbn.
  repeat split.
  do 2 eexists. split; [reflexivity |].
  intros env w Hnet.
  both_implementations HL; cbn; fold (params_of r vars); rewrite Hnet; reflexivity.
Qed.

Lemma call_start_touches_loading_only_witness :
  In Lib.loadData implementations /\
  fst (sync_part (Lib.loadData by_id (JObj [("id", JNum 5)]))) = [SetLoading true] /\
  hook (snd (run silent_env (Lib.loadData by_id (JObj [("id", JNum 5)])) stale)) =
    {| loading := true;
       error := JError "TypeError" "Failed to fetch";
       data := JObj [("user", JObj [("name", JStr "Ada")])] |}.
Proof.
  assert (HL : In Lib.loadData implementations) by (simpl; tauto).
  split; [exact HL |].
  destruct (call_start_touches_loading_only by_id (JObj [("id", JNum 5)]) HL)
    as [Hsync [_ [input [init [_ Hpending]]]]].
  split; [exact Hsync |].
  exact (Hpending silent_env stale eq_refl).
Defined.

(** C7: a call with an override object sends that object as [variables];
    the default is untouched, a following call without an argument sends
    it. *)
Theorem override_is_for_one_call L r o env w :
  In L implementations ->
  let w1 := snd (run env (L r (JObj o)) w) in
  let w2 := snd (run env (L r JUndefined) w1) in
  map (fun q => body (snd q)) (requests (trace w2)) =
  map (fun q => body (snd q)) (requests (trace w)) ++
  [JSON_stringify (JObj [("query", JStr (query (props r)));
                         ("variables", JObj o)]);
   JSON_stringify (JObj [("query", JStr (query (props r)));
                         ("variables", variables (props r))])].
Proof.
  intros HL w1 w2. subst w1 w2.
  rewrite !(loadData_requests _ _ _ _ HL).
  rewrite <- app_assoc, map_app. reflexivity.
Qed.

Lemma override_is_for_one_call_witness :
  In Src.loadData implementations /\
  map (fun q => body (snd q))
      (requests (trace (snd (run pong_env (Src.loadData by_id JUndefined)
                    (snd (run pong_env (Src.loadData by_id (JObj [("id", JNum 5)]))
                              fresh)))))) =
  [JSON_stringify (JObj [("query", JStr "query($id:Int){user(id:$id){name}}");
                         ("variables", JObj [("id", JNum 5)])]);
   JSON_stringify (JObj [("query", JStr "query($id:Int){user(id:$id){name}}");
                         ("variables", JObj [("id", JNum 1)])])].
Proof.
  assert (HL : In Src.loadData implementations) by (simpl; tauto).
  split; [exact HL |].
  exact (override_is_for_one_call by_id [("id", JNum 5)] pong_env fresh HL).
Defined.

(** C2: the request of a call carries the [Content-Type] header
    [application/json] together with the configured headers, and where both
    name a header the configured value is the one sent. *)
Theorem outgoing_headers_merge L r vars env w :
  In L implementations ->
  NoDup (map fst (configured (context r))) ->
  exists init,
    requests (trace (snd (run env (L r vars) w))) =
      requests (trace w) ++ [(endpoint (context r), init)] /\
    method init = "post" /\
    forall k,
      obj_get k (headers init) =
      match obj_get k (configured (context r)) with
      | Some v => Some v
      | None => obj_get k [("Content-Type", JStr "application/json")]
      end.
Proof.
  intros HL Hnd.
  eexists. split; [apply (loadData_requests _ _ _ _ HL) |].
  split; [reflexivity |].
  intros k. cbn [headers]. unfold configured in *.
  destruct (ctx_headers (context r)) as [o |]; cbn [spread_opt].
  - now apply obj_get_spread.
  - reflexivity.
Qed.

Lemma outgoing_headers_merge_witness :
  In Src.loadData implementations /\
  NoDup (map fst (configured (context ping))) /\
  exists init,
    requests (trace (snd (run pong_env (Src.loadData ping JUndefined) fresh))) =
      [(endpoint (context ping), init)] /\
    obj_get "Authorization" (headers init) = Some (JStr "X") /\
    obj_get "Content-Type" (headers init) = Some (JStr "application/json").
Proof.
  assert (HL : In Src.loadData implementations) by (simpl; tauto).
  assert (Hnd : NoDup (map fst (configured (context ping))))
    by (repeat constructor; simpl; tauto).
  split; [exact HL | split; [exact Hnd |]].
  destruct (outgoing_headers_merge ping JUndefined pong_env fresh HL Hnd)
    as [init [Hreq [_ Hget]]].
  exists init. split; [exact Hreq |].
  split; rewrite Hget; reflexivity.
Defined.

(** The two header sets the spec spells out. *)
Example headers_with_authorization :
  map (fun q => headers (snd q))
      (requests (trace (snd (run pong_env (Lib.loadData ping JUndefined) fresh)))) =
  [[("Content-Type", JStr "application/json"); ("Authorization", JStr "X")]].
Proof. reflexivity. Qed.

Example headers_with_content_type_override :
  let r := {| context := {| endpoint := "/graphql";
                            ctx_headers :=
                              Some [("Authorization", JStr "X");
                                    ("Content-Type", JStr "application/graphql")] |};
              props := props ping |} in
  map (fun q => headers (snd q))
      (requests (trace (snd (run pong_env (Src.loadData r JUndefined) fresh)))) =
  [[("Content-Type", JStr "application/graphql"); ("Authorization", JStr "X")]].
Proof. reflexivity. Qed.

(** ** The delay of the TypeScript source *)

Lemma state_at_before t tr s :
  Forall (fun ev => (t < fst ev)%N) tr -> state_at t tr s = s.
Proof.
  induction 1 as [| [t' ev] rest Hlt _ IH]; simpl in *; auto.
  destruct ev; auto.
  now rewrite (proj2 (N.leb_gt t' t) Hlt).
Qed.

(** C9: in [src/src/index.tsx] a call whose [fetch] is answered then awaits
    a timer of 3000 ms before it reads the body: the timer starts when the
    transport ends, [req.json()] starts when the timer fires, everything
    the call does afterwards (the writes to [data] and [loading] among it)
    is at least 3000 ms later than the answer, and until then the observable
    state is the prior one with [loading] set. *)
Theorem delay_precedes_success_writes env r vars s t0 input init dt resp :
  snd (sync_part (Src.loadData r vars)) = Some (AFetch input init) ->
  net env input init = Settles dt (Fulfilled resp) ->
  let tr := trace (snd (run env (Src.loadData r vars) (start s t0))) in
  let answered := (t0 + dt)%N in
  exists fired rest,
    (answered + 3000 <= fired)%N /\
    tr = [(t0, Wrote (SetLoading true));
          (t0, Began (AFetch input init));
          (answered, Ended (AFetch input init));
          (answered, Began (ATimer 3000));
          (fired, Ended (ATimer 3000));
          (fired, Began (AJson resp))] ++ rest /\
    Forall (fun ev => (fired <= fst ev)%N) rest /\
    forall t, (t0 <= t < answered + 3000)%N ->
      state_at t tr s = {| loading := true; error := error s; data := data s |}.
Proof.
  intros Hsync Hnet tr answered. subst tr answered.
  name_request Hsync.
  exists (t0 + dt + (3000 + timer_lag env))%N.
  assert (Hrun : exists rest,
    trace (snd (run env (Src.loadData r vars) (start s t0))) =
      [(t0, Wrote (SetLoading true));
       (t0, Began (AFetch (endpoint (context r))
          {| method := "post";
             headers := spread_opt [("Content-Type", JStr "application/json")]
                                   (ctx_headers (context r));
             body := JSON_stringify
                       (JObj [("query", JStr (query (props r)));
                              ("variables", params_of r vars)]) |}));
       ((t0 + dt)%N, Ended (AFetch (endpoint (context r))
          {| method := "post";
             headers := spread_opt [("Content-Type", JStr "application/json")]
                                   (ctx_headers (context r));
             body := JSON_stringify
                       (JObj [("query", JStr (query (props r)));
                              ("variables", params_of r vars)]) |}));
       ((t0 + dt)%N, Began (ATimer 3000));
       ((t0 + dt + (3000 + timer_lag env))%N, Ended (ATimer 3000));
       ((t0 + dt + (3000 + timer_lag env))%N, Began (AJson resp))] ++ rest /\
    Forall (fun ev => (t0 + dt + (3000 + timer_lag env) <= fst ev)%N) rest).
  { unfold Src.loadData, start. fold (params_of r vars).
    cbn -[N.add]. rewrite Hnet. cbn -[N.add].
    destruct (json_result resp) as [dt' [rs | e] |]; cbn -[N.add];
      [ destruct (member_data rs) as [d | e]; cbn -[N.add] | | ];
      eexists; (split; [reflexivity |]);
      repeat constructor; cbn -[N.add]; lia. }
  destruct Hrun as [rest [Htr Hlater]].
  exists rest. split; [lia |]. split; [exact Htr |]. split; [exact Hlater |].
  intros t [Hlo Hhi]. rewrite Htr.
  cbn -[N.add]. rewrite (proj2 (N.leb_le t0 t) Hlo).
  apply state_at_before.
  eapply Forall_impl; [| exact Hlater].
  intros ev Hev. cbn -[N.add] in *. lia.
Qed.

Lemma delay_precedes_success_writes_witness :
  net pong_env (endpoint (context ping))
      {| method := "post";
         headers := [("Content-Type", JStr "application/json");
                     ("Authorization", JStr "X")];
         body := JSON_stringify
                   (JObj [("query", JStr "{ping}"); ("variables", JObj [])]) |}
    = Settles 20 (Fulfilled
        (respond 200 1
           (Fulfilled (JObj [("data", JObj [("ping", JStr "pong")])])))) /\
  forall t, (7 <= t < 7 + 20 + 3000)%N ->
    state_at t (trace (snd (run pong_env (Src.loadData ping JUndefined)
                                (start initial 7))))
             initial
    = {| loading := true; error := JNull; data := JNull |}.
Proof.
  split; [reflexivity |].
  destruct (@delay_precedes_success_writes pong_env ping JUndefined initial 7%N
              _ _ 20%N _ eq_refl eq_refl) as [fired [rest [_ [_ [_ Hstate]]]]].
  exact Hstate.
Defined.

(** ** Activation and deactivation *)

(** While the flag keeps the value it had at activation, later renders of
    the TypeScript hook run no effect. *)
Lemma src_rerenders_quiet (b : bool) (committed : Effect) (rs : list Render) :
  deps committed = [b] ->
  Forall (fun r => loadOnStart (props r) = b) rs ->
  rerenders Src.effect committed rs = ([], committed).
Proof.
  intros Hdeps Hall.
  induction Hall as [| r rest Hr _ IH]; simpl; auto.
  unfold rerender, deps_changed. rewrite Hdeps.
  cbn [Src.effect deps combine existsb fst snd].
  rewrite Hr, xorb_nilpotent. cbn. now rewrite IH.
Qed.

(** The build's effect has no dependencies: later renders never run it. *)
Lemma lib_rerenders_quiet (committed : Effect) (rs : list Render) :
  deps committed = [] ->
  rerenders Lib.effect committed rs = ([], committed).
Proof.
  intros Hdeps.
  induction rs as [| r rest IH]; simpl; auto.
  unfold rerender. rewrite Hdeps. simpl. now rewrite IH.
Qed.

(** X10: the TypeScript source triggers on the flag: activated with [loadOnStart]
    set it calls [loadData()] once, with the flag clear it calls nothing,
    later renders that keep the flag add no call, the one request made
    carries the default variables, and deactivation calls [reset()] once. *)
Lemma src_auto_trigger_once (r0 : Render) (rs : list Render) env w :
  Forall (fun r => loadOnStart (props r) = loadOnStart (props r0)) rs ->
  automatic_calls Src.effect r0 rs =
    (if loadOnStart (props r0) then [loadData_call r0 JUndefined] else []) /\
  deactivation_calls Src.effect r0 rs = [reset_call] /\
  map (fun q => body (snd q))
      (requests (trace (run_calls env Src.loadData
                          (automatic_calls Src.effect r0 rs) w))) =
    map (fun q => body (snd q)) (requests (trace w)) ++
    (if loadOnStart (props r0)
     then [JSON_stringify (JObj [("query", JStr (query (props r0)));
                                 ("variables", variables (props r0))])]
     else []).
Proof.
  intros Hall.
  unfold automatic_calls, deactivation_calls, while_live, mount.
  rewrite (src_rerenders_quiet (b := loadOnStart (props r0))) by auto.
  cbn [fst snd unmount]. rewrite app_nil_r.
  split; [reflexivity |]. split; [reflexivity |].
  cbn [Src.effect on_commit].
  destruct (loadOnStart (props r0)); cbn [run_calls fold_left perform].
  - rewrite loadData_requests by (simpl; tauto).
    rewrite map_app. reflexivity.
  - now rewrite app_nil_r.
Qed.

(** X11: the build decides on [props.variables] instead: activated with
    truthy variables it calls [loadData()] once, otherwise not at all,
    whatever [loadOnStart] says; no later render runs the effect again;
    deactivation calls [reset()] once. *)
Lemma lib_auto_trigger (r0 : Render) (rs : list Render) :
  automatic_calls Lib.effect r0 rs =
    (if truthy (variables (props r0)) then [loadData_call r0 JUndefined] else []) /\
  deactivation_calls Lib.effect r0 rs = [reset_call].
Proof.
  unfold automatic_calls, deactivation_calls, while_live, mount.
  rewrite lib_rerenders_quiet by reflexivity.
  cbn [fst snd unmount]. rewrite app_nil_r. split; reflexivity.
Qed.

(** C3, at the input where the build breaks it: activated with
    [loadOnStart = false] and variables [{}], [src/lib/index.js] calls
    [loadData()] all the same and one request leaves; the TypeScript source
    makes no call there. *)
Theorem lib_auto_trigger_ignores_loadOnStart :
  loadOnStart (props manual) = false /\
  automatic_calls Lib.effect manual [] = [loadData_call manual JUndefined] /\
  length (requests (trace (run_calls pong_env Lib.loadData
                             (automatic_calls Lib.effect manual []) fresh))) = 1 /\
  automatic_calls Src.effect manual [] = [].
Proof.
  repeat split.
Qed.

(** ** The two files side by side *)

(** X16: on what a call does to the state, on how its promise ends and on
    what it sends, the two files agree, whatever the transport does. *)
Lemma loadData_states_agree env r vars w :
  hook (snd (run env (Src.loadData r vars) w)) =
  hook (snd (run env (Lib.loadData r vars) w)) /\
  fst (run env (Src.loadData r vars) w) = fst (run env (Lib.loadData r vars) w) /\
  requests (trace (snd (run env (Src.loadData r vars) w))) =
  requests (trace (snd (run env (Lib.loadData r vars) w))).
Proof.
  split; [| split].
  - cbn. destruct (net env _ _) as [dt [resp | e] |]; cbn; auto.
    destruct (json_result resp) as [dt' [rs | e] |]; cbn; auto.
    destruct (member_data rs) as [d | e]; cbn; auto.
  - cbn. destruct (net env _ _) as [dt [resp | e] |]; cbn; auto.
    destruct (json_result resp) as [dt' [rs | e] |]; cbn; auto.
    destruct (member_data rs) as [d | e]; cbn; auto.
  - rewrite !loadData_requests by (simpl; tauto). reflexivity.
Qed.

(** C10, at inputs where the two files differ: activated with
    [loadOnStart = false] and variables [{}] the source stays idle and the
    build sends a request; on the same answer the source writes [data]
    3000 ms later than the build, after a timer the build never starts; the
    source returns an array, the build an object that cannot be destructured
    as one. *)
Theorem implementations_diverge :
  (automatic_calls Src.effect manual [] = [] /\
   automatic_calls Lib.effect manual [] = [loadData_call manual JUndefined]) /\
  (time_of timer_began
     (trace (snd (run pong_env (Src.loadData ping JUndefined) fresh))) = Some 20%N /\
   time_of timer_began
     (trace (snd (run pong_env (Lib.loadData ping JUndefined) fresh))) = None /\
   time_of data_written
     (trace (snd (run pong_env (Src.loadData ping JUndefined) fresh))) = Some 3021%N /\
   time_of data_written
     (trace (snd (run pong_env (Lib.loadData ping JUndefined) fresh))) = Some 21%N) /\
  (is_array (Src.useGraphQL ping initial) = true /\
   is_array (Lib.useGraphQL ping initial) = false /\
   destructure_pair (Lib.useGraphQL ping initial) =
     Rejected (JError "TypeError" "object is not iterable")).
Proof.
  repeat split.
Qed.

(** * Further properties of the code *)

(** ** The request of a call *)


(** X2: an argument that is falsy ([undefined], [null], [false], [0], the
    empty string) is not an override: the call sends the default
    variables. *)
Theorem falsy_override_sends_default L r vars env w :
  In L implementations ->
  truthy vars = false ->
  map (fun q => body (snd q)) (requests (trace (snd (run env (L r vars) w)))) =
  map (fun q => body (snd q)) (requests (trace w)) ++
  [JSON_stringify (JObj [("query", JStr (query (props r)));
                         ("variables", variables (props r))])].
Proof.
  intros HL Hfalsy.
  rewrite (loadData_requests _ _ _ _ HL), map_app.
  unfold params_of. rewrite Hfalsy. reflexivity.
Qed.

Lemma falsy_override_sends_default_witness :
  In Lib.loadData implementations /\
  truthy (JNum 0) = false /\
  map (fun q => body (snd q))
      (requests (trace (snd (run pong_env (Lib.loadData by_id (JNum 0)) fresh)))) =
  [JSON_stringify (JObj [("query", JStr "query($id:Int){user(id:$id){name}}");
                         ("variables", JObj [("id", JNum 1)])])].
Proof.
  assert (HL : In Lib.loadData implementations) by (simpl; tauto).
  split; [exact HL | split; [reflexivity |]].
  exact (falsy_override_sends_default by_id (JNum 0) pong_env fresh HL eq_refl).
Defined.

(** *** The shape of the header object *)





(** ** What a call can do to the state *)

(** X4: the status of the response plays no part: with the status of every
    response replaced, a call leaves the same state and ends the same
    way. *)
Theorem status_is_ignored code env r vars w :
  Forall (fun L =>
    hook (snd (run (with_status code env) (L r vars) w)) =
      hook (snd (run env (L r vars) w)) /\
    fst (run (with_status code env) (L r vars) w) = fst (run env (L r vars) w))
    implementations.
Proof.
  repeat constructor; cbn;
    (destruct (net env _ _) as [dt [resp | e] |]; cbn; auto;
     destruct (json_result resp) as [dt' [rs | e] |]; cbn; auto;
     destruct (member_data rs) as [d | e]; cbn; auto).
Qed.

Ltac request_named :=
  do 2 eexists; split; [reflexivity |].


(** The state a call leaves when its request path fails. *)
Lemma failure_state L r vars env w e :
  In L implementations ->
  Failed env L r vars e ->
  hook (snd (run env (L r vars) w)) =
    {| loading := true; error := e; data := data (hook w) |}.
Proof.
  intros HL [input [init [Hsync Hfail]]].
  both_implementations HL; name_request Hsync;
    destruct Hfail as [dt Hnet | dt dt' resp Hnet Hjson
                       | dt dt' resp rs Hnet Hjson Hmember];
    cbn; fold (params_of r vars); rewrite Hnet; cbn;
    rewrite ?Hjson; cbn; rewrite ?Hmember; cbn; auto.
Qed.

Lemma answered_state L r vars env w d :
  In L implementations ->
  Answered env L r vars d ->
  hook (snd (run env (L r vars) w)) =
    {| loading := false; error := error (hook w); data := d |}.
Proof.
  intros HL [input [init [dt [dt' [resp [rs [Hsync [Hnet [Hjson Hmember]]]]]]]]].
  eapply success_state; eauto.
Qed.

(** X6: calls one after the other.  A success after a failure clears
    [loading] but not [error]: the old error stays beside the new data.  A
    failure after a success keeps the old data beside the new error and
    leaves [loading] set. *)
Theorem error_and_data_outlive_later_calls L r1 v1 r2 v2 env1 env2 w e d :
  In L implementations ->
  Failed env1 L r1 v1 e ->
  Answered env2 L r2 v2 d ->
  hook (snd (run env2 (L r2 v2) (snd (run env1 (L r1 v1) w)))) =
    {| loading := false; error := e; data := d |} /\
  hook (snd (run env1 (L r1 v1) (snd (run env2 (L r2 v2) w)))) =
    {| loading := true; error := e; data := d |}.
Proof.
  intros HL Hfail Hok.
  split.
  - rewrite (answered_state _ HL Hok), (failure_state _ HL Hfail). reflexivity.
  - rewrite (failure_state _ HL Hfail), (answered_state _ HL Hok). reflexivity.
Qed.

Lemma error_and_data_outlive_later_calls_witness :
  In Src.loadData implementations /\
  Failed offline_env Src.loadData ping JUndefined
         (JError "TypeError" "Failed to fetch") /\
  Answered pong_env Src.loadData ping JUndefined (JObj [("ping", JStr "pong")]) /\
  hook (snd (run pong_env (Src.loadData ping JUndefined)
               (snd (run offline_env (Src.loadData ping JUndefined) fresh)))) =
    {| loading := false;
       error := JError "TypeError" "Failed to fetch";
       data := JObj [("ping", JStr "pong")] |}.
Proof.
  assert (HL : In Src.loadData implementations) by (simpl; tauto).
  assert (Hfail : Failed offline_env Src.loadData ping JUndefined
                         (JError "TypeError" "Failed to fetch")).
  { request_named. apply fetch_rejects with (dt := 5%N). reflexivity. }
  assert (Hok : Answered pong_env Src.loadData ping JUndefined
                         (JObj [("ping", JStr "pong")])).
  { do 2 eexists. exists 20%N, 1%N. do 2 eexists. repeat split; reflexivity. }
  repeat (split; [assumption |]).
  exact (proj1 (error_and_data_outlive_later_calls fresh HL Hfail Hok)).
Defined.

(** ** When a call ends *)

(** X7: when [fetch] is answered and the body is read, for better or worse,
    a call of the TypeScript source ends 3000 ms plus the timer's lag after
    the same call of the build: the build ends when the body has been
    read. *)
Theorem source_ends_a_timer_after_build
    env r vars w input init dt resp dt' outcome :
  snd (sync_part (Src.loadData r vars)) = Some (AFetch input init) ->
  net env input init = Settles dt (Fulfilled resp) ->
  json_result resp = Settles dt' outcome ->
  now (snd (run env (Lib.loadData r vars) w)) = (now w + dt + dt')%N /\
  now (snd (run env (Src.loadData r vars) w)) =
    (now (snd (run env (Lib.loadData r vars) w)) + 3000 + timer_lag env)%N.
Proof.
  intros Hsync Hnet Hjson. name_request Hsync.
  unfold Src.loadData, Lib.loadData. fold (params_of r vars).
  cbn -[N.add]. rewrite Hnet. cbn -[N.add]. rewrite Hjson.
  destruct outcome as [rs | e]; cbn -[N.add];
    [ destruct (member_data rs) as [d | e]; cbn -[N.add] | ];
    split; lia.
Qed.

Lemma source_ends_a_timer_after_build_witness :
  net pong_env (endpoint (context ping))
      {| method := "post";
         headers := [("Content-Type", JStr "application/json");
                     ("Authorization", JStr "X")];
         body := JSON_stringify
                   (JObj [("query", JStr "{ping}"); ("variables", JObj [])]) |}
    = Settles 20 (Fulfilled
        (respond 200 1
           (Fulfilled (JObj [("data", JObj [("ping", JStr "pong")])])))) /\
  now (snd (run pong_env (Lib.loadData ping JUndefined) fresh)) = 21%N /\
  now (snd (run pong_env (Src.loadData ping JUndefined) fresh)) = 3021%N.
Proof.
  split; [reflexivity |].
  destruct (@source_ends_a_timer_after_build pong_env ping JUndefined fresh
              _ _ 20%N _ 1%N _ eq_refl eq_refl eq_refl) as [Hlib Hsrc].
  split; [exact Hlib |].
  rewrite Hsrc, Hlib. reflexivity.
Defined.

(** X8: when [fetch] rejects, no timer is started in either file: the call
    ends, with the error recorded, at the moment of the rejection. *)
Theorem rejection_is_recorded_at_once L env r vars w input init dt e :
  In L implementations ->
  snd (sync_part (L r vars)) = Some (AFetch input init) ->
  net env input init = Settles dt (Rejected e) ->
  trace (snd (run env (L r vars) w)) =
    trace w ++ [(now w, Wrote (SetLoading true));
                (now w, Began (AFetch input init));
                ((now w + dt)%N, Ended (AFetch input init));
                ((now w + dt)%N, Wrote (SetError e))] /\
  now (snd (run env (L r vars) w)) = (now w + dt)%N.
Proof.
  intros HL Hsync Hnet.
  both_implementations HL; name_request Hsync;
    [ unfold Src.loadData | unfold Lib.loadData ];
    fold (params_of r vars);
    cbn -[N.add]; rewrite Hnet; cbn -[N.add];
    rewrite <- !app_assoc; split; reflexivity.
Qed.

Lemma rejection_is_recorded_at_once_witness :
  In Src.loadData implementations /\
  map fst (trace (snd (run offline_env (Src.loadData ping JUndefined) fresh))) =
    [0%N; 0%N; 5%N; 5%N] /\
  now (snd (run offline_env (Src.loadData ping JUndefined) fresh)) = 5%N.
Proof.
  assert (HL : In Src.loadData implementations) by (simpl; tauto).
  split; [exact HL |].
  destruct (@rejection_is_recorded_at_once Src.loadData offline_env ping
              JUndefined fresh _ _ 5%N _ HL eq_refl eq_refl) as [Htrace Hnow].
  split; [rewrite Htrace; reflexivity | exact Hnow].
Defined.

(** ** Configuration *)

(** X9: a hook with no provider above it sends its request to the empty
    endpoint, and such a hook, like one below a provider that was given no
    [headers], sends [Content-Type] as the only header. *)
Theorem request_without_configured_headers env p vars w :
  Forall (fun L =>
    requests (trace (snd (run env (L (render_under [] p) vars) w))) =
      requests (trace w) ++
      [("",
        {| method := "post";
           headers := [("Content-Type", JStr "application/json")];
           body := JSON_stringify
                     (JObj [("query", JStr (query p));
                            ("variables", params_of (render_under [] p) vars)]) |})]
    /\
    forall ep outer,
      let above := {| provided_endpoint := ep; provided_headers := None |} :: outer in
      requests (trace (snd (run env (L (render_under above p) vars) w))) =
        requests (trace w) ++
        [(ep,
          {| method := "post";
             headers := [("Content-Type", JStr "application/json")];
             body := JSON_stringify
                       (JObj [("query", JStr (query p));
                              ("variables", params_of (render_under above p) vars)]) |})])
    implementations.
Proof.
  repeat apply Forall_cons; [ | | apply Forall_nil];
    (split; [| intros ep outer above];
     rewrite loadData_requests by (simpl; tauto); reflexivity).
Qed.

(** ** The effect of the TypeScript source when the flag changes *)

Lemma src_auto_trigger_once_witness :
  Forall (fun r => loadOnStart (props r) = loadOnStart (props ping)) [by_id; ping] /\
  automatic_calls Src.effect ping [by_id; ping] = [loadData_call ping JUndefined] /\
  deactivation_calls Src.effect ping [by_id; ping] = [reset_call].
Proof.
  assert (Hall : Forall (fun r => loadOnStart (props r) = loadOnStart (props ping))
                        [by_id; ping]) by (repeat constructor).
  split; [exact Hall |].
  destruct (@src_auto_trigger_once ping [by_id; ping] pong_env fresh Hall)
    as [Hauto [Hdeact _]].
  split; [exact Hauto | exact Hdeact].
Defined.

(** X12: in the TypeScript source a render that changes [loadOnStart] runs
    the effect again: [reset()] is called first, so switching the flag off
    wipes the hook's state, and switching it on wipes it and then calls
    [loadData()] with the closure of that render. *)
Theorem src_flag_change_resets_then_loads (r0 r1 : Render) :
  loadOnStart (props r1) <> loadOnStart (props r0) ->
  automatic_calls Src.effect r0 [r1] =
    (if loadOnStart (props r0) then [loadData_call r0 JUndefined] else []) ++
    reset_call ::
    (if loadOnStart (props r1) then [loadData_call r1 JUndefined] else []).
Proof.
  intros Hflip.
  unfold automatic_calls, while_live, mount, rerenders, rerender, deps_changed.
  cbn [Src.effect deps combine existsb fst snd on_commit cleanup].
  destruct (loadOnStart (props r0)), (loadOnStart (props r1));
    try congruence; reflexivity.
Qed.

Lemma src_flag_change_resets_then_loads_witness :
  loadOnStart (props manual) <> loadOnStart (props ping) /\
  automatic_calls Src.effect ping [manual] =
    [loadData_call ping JUndefined; reset_call].
Proof.
  assert (Hflip : loadOnStart (props manual) <> loadOnStart (props ping))
    by discriminate.
  split; [exact Hflip |].
  exact (src_flag_change_resets_then_loads ping manual Hflip).
Defined.

(** ** Calls that overlap *)

(** The state a run leaves depends on the state it starts from, not on the
    clock or on the trace so far. *)
Lemma run_hook_of_hook {A : Type} (env : Env) (m : Async A) :
  forall w w',
    hook w = hook w' ->
    hook (snd (run env m w)) = hook (snd (run env m w')) /\
    fst (run env m w) = fst (run env m w').
Proof.
  induction m as [a | e | wr k IH | X p k IH]; intros w w' Hw; simpl; auto.
  - apply IH. simpl. now rewrite Hw.
  - destruct (settle env p) as [dt s |]; simpl; auto.
Qed.

Lemma drive_finished {A : Type} (env : Env) (n : nat) (c : Completion A) s :
  drive env n (Finished c) s = (Finished c, s).
Proof.
  induction n as [| n IH]; simpl; auto.
Qed.

(** Turn by turn or in one go, a lone call comes to the same state. *)
Lemma drive_agrees_with_run {A : Type} (env : Env) (m : Async A) :
  forall s t0,
    exists n, forall fuel, n <= fuel ->
      snd (drive env fuel (fst (advance m s)) (snd (advance m s))) =
      hook (snd (run env m (start s t0))).
Proof.
  induction m as [a | e | wr k IH | X p k IH]; intros s t0.
  - exists 0. intros fuel _. simpl. now rewrite drive_finished.
  - exists 0. intros fuel _. simpl. now rewrite drive_finished.
  - destruct (IH (apply_write wr s) t0) as [n Hn].
    exists n. intros fuel Hfuel. simpl. rewrite (Hn fuel Hfuel).
    apply run_hook_of_hook. reflexivity.
  - simpl. destruct (settle env p) as [dt r |] eqn:Hsettle.
    + destruct (IH r s t0) as [n Hn].
      exists (S n). intros fuel Hfuel.
      destruct fuel as [| fuel]; [lia |].
      simpl. rewrite Hsettle.
      destruct (advance (k r) s) as [t' s'] eqn:Hadv.
      specialize (Hn fuel ltac:(lia)). simpl in Hn.
      rewrite Hn. apply run_hook_of_hook. reflexivity.
    + exists 0. intros fuel _. simpl.
      induction fuel as [| fuel IHfuel]; simpl; auto.
      now rewrite Hsettle.
Qed.

Ltac unpack_answered H :=
  let input := fresh "input" in
  let init := fresh "init" in
  let dt := fresh "dt" in
  let dt' := fresh "dt'" in
  let resp := fresh "resp" in
  let rs := fresh "rs" in
  let Hsync := fresh "Hsync" in
  let Hnet := fresh "Hnet" in
  let Hjson := fresh "Hjson" in
  let Hmember := fresh "Hmember" in
  destruct H as [input [init [dt [dt' [resp [rs [Hsync [Hnet [Hjson Hmember]]]]]]]]];
  name_request Hsync.

Ltac play_answered Hnet Hjson Hmember :=
  rewrite ?Hnet; cbn; rewrite ?Hjson; cbn; rewrite ?Hmember; cbn.

(** X13: two calls in flight write to the same cells, and the answer that
    arrives last stays: if the second call is answered before the first,
    the hook ends with the data of the first, stale, call. *)
Theorem last_answer_wins L rA vA rB vB env s dA dB :
  In L implementations ->
  Answered env L rA vA dA ->
  Answered env L rB vB dB ->
  cells (play env L
           ([Invoke (loadData_call rA vA); Invoke (loadData_call rB vB)]
            ++ complete 1 ++ complete 0)
           (idle s)) =
    {| loading := false; error := error s; data := dA |} /\
  cells (play env L
           ([Invoke (loadData_call rA vA); Invoke (loadData_call rB vB)]
            ++ complete 0 ++ complete 1)
           (idle s)) =
    {| loading := false; error := error s; data := dB |}.
Proof.
  intros HL HA HB.
  unpack_answered HA. unpack_answered HB.
  both_implementations HL; split; cbn;
    fold (params_of rA vA); fold (params_of rB vB);
    repeat (first [ rewrite Hnet | rewrite Hnet0
                  | rewrite Hjson | rewrite Hjson0
                  | rewrite Hmember | rewrite Hmember0 ]; cbn);
    reflexivity.
Qed.

Lemma last_answer_wins_witness :
  In Src.loadData implementations /\
  Answered users_env Src.loadData by_id JUndefined
           (JObj [("user", JObj [("name", JStr "Ada")])]) /\
  Answered users_env Src.loadData by_id (JObj [("id", JNum 2)])
           (JObj [("user", JObj [("name", JStr "Grace")])]) /\
  cells (play users_env Src.loadData
           ([Invoke (loadData_call by_id JUndefined);
             Invoke (loadData_call by_id (JObj [("id", JNum 2)]))]
            ++ complete 1 ++ complete 0)
           (idle initial)) =
    {| loading := false; error := JNull;
       data := JObj [("user", JObj [("name", JStr "Ada")])] |}.
Proof.
  assert (HL : In Src.loadData implementations) by (simpl; tauto).
  assert (HA : Answered users_env Src.loadData by_id JUndefined
                        (JObj [("user", JObj [("name", JStr "Ada")])])).
  { do 2 eexists. exists 300%N, 1%N. do 2 eexists. repeat split; reflexivity. }
  assert (HB : Answered users_env Src.loadData by_id (JObj [("id", JNum 2)])
                        (JObj [("user", JObj [("name", JStr "Grace")])])).
  { do 2 eexists. exists 20%N, 1%N. do 2 eexists. repeat split; reflexivity. }
  repeat (split; [assumption |]).
  exact (proj1 (last_answer_wins initial HL HA HB)).
Defined.

(** X14: [reset()] does not cancel a call in flight.  When the call is
    answered after the reset its data appears in the state that was reset;
    when it fails after the reset its error appears there, and [loading],
    cleared by the reset, stays cleared. *)
Theorem reset_does_not_cancel L rA vA rB vB env s d e :
  In L implementations ->
  Answered env L rA vA d ->
  Failed env L rB vB e ->
  cells (play env L
           ([Invoke (loadData_call rA vA); Invoke reset_call] ++ complete 0)
           (idle s)) =
    {| loading := false; error := JNull; data := d |} /\
  cells (play env L
           ([Invoke (loadData_call rB vB); Invoke reset_call] ++ complete 0)
           (idle s)) =
    {| loading := false; error := e; data := JNull |}.
Proof.
  intros HL HA [input' [init' [Hsync' Hfail]]].
  unpack_answered HA. name_request Hsync'.
  both_implementations HL; split; cbn;
    fold (params_of rA vA); fold (params_of rB vB).
  1, 3: repeat (first [ rewrite Hnet | rewrite Hjson | rewrite Hmember ]; cbn);
        reflexivity.
  all: destruct Hfail as [dt1 Hn | dt1 dt2 resp1 Hn Hj
                          | dt1 dt2 resp1 rs1 Hn Hj Hm];
    repeat (first [ rewrite Hn | rewrite Hj | rewrite Hm ]; cbn);
    reflexivity.
Qed.

Lemma reset_does_not_cancel_witness :
  In Lib.loadData implementations /\
  Answered flaky_env Lib.loadData by_id (JObj [("id", JNum 2)])
           (JObj [("user", JObj [("name", JStr "Grace")])]) /\
  Failed flaky_env Lib.loadData by_id JUndefined
         (JError "TypeError" "Failed to fetch") /\
  cells (play flaky_env Lib.loadData
           ([Invoke (loadData_call by_id (JObj [("id", JNum 2)]));
             Invoke reset_call] ++ complete 0)
           (idle initial)) =
    {| loading := false; error := JNull;
       data := JObj [("user", JObj [("name", JStr "Grace")])] |}.
Proof.
  assert (HL : In Lib.loadData implementations) by (simpl; tauto).
  assert (HA : Answered flaky_env Lib.loadData by_id (JObj [("id", JNum 2)])
                        (JObj [("user", JObj [("name", JStr "Grace")])])).
  { do 2 eexists. exists 20%N, 1%N. do 2 eexists. repeat split; reflexivity. }
  assert (HB : Failed flaky_env Lib.loadData by_id JUndefined
                      (JError "TypeError" "Failed to fetch")).
  { request_named. apply fetch_rejects with (dt := 300%N). reflexivity. }
  repeat (split; [assumption |]).
  exact (proj1 (reset_does_not_cancel initial HL HA HB)).
Defined.

(** X15: when a failing call and an answered call overlap, the hook ends
    with the error of the one, the data of the other and [loading]
    cleared, in whichever order they end. *)
Theorem overlapping_failure_and_answer L rA vA rB vB env s e d :
  In L implementations ->
  Failed env L rA vA e ->
  Answered env L rB vB d ->
  cells (play env L
           ([Invoke (loadData_call rA vA); Invoke (loadData_call rB vB)]
            ++ complete 0 ++ complete 1)
           (idle s)) =
    {| loading := false; error := e; data := d |} /\
  cells (play env L
           ([Invoke (loadData_call rA vA); Invoke (loadData_call rB vB)]
            ++ complete 1 ++ complete 0)
           (idle s)) =
    {| loading := false; error := e; data := d |}.
Proof.
  intros HL [input' [init' [Hsync' Hfail]]] HB.
  unpack_answered HB. name_request Hsync'.
  both_implementations HL; split; cbn;
    fold (params_of rA vA); fold (params_of rB vB);
    destruct Hfail as [dt1 Hn | dt1 dt2 resp1 Hn Hj
                       | dt1 dt2 resp1 rs1 Hn Hj Hm];
    repeat (first [ rewrite Hn | rewrite Hj | rewrite Hm
                  | rewrite Hnet | rewrite Hjson | rewrite Hmember ]; cbn);
    reflexivity.
Qed.

Lemma overlapping_failure_and_answer_witness :
  In Src.loadData implementations /\
  Failed flaky_env Src.loadData by_id JUndefined
         (JError "TypeError" "Failed to fetch") /\
  Answered flaky_env Src.loadData by_id (JObj [("id", JNum 2)])
           (JObj [("user", JObj [("name", JStr "Grace")])]) /\
  cells (play flaky_env Src.loadData
           ([Invoke (loadData_call by_id JUndefined);
             Invoke (loadData_call by_id (JObj [("id", JNum 2)]))]
            ++ complete 1 ++ complete 0)
           (idle initial)) =
    {| loading := false;
       error := JError "TypeError" "Failed to fetch";
       data := JObj [("user", JObj [("name", JStr "Grace")])] |}.
Proof.
  assert (HL : In Src.loadData implementations) by (simpl; tauto).
  assert (HA : Failed flaky_env Src.loadData by_id JUndefined
                      (JError "TypeError" "Failed to fetch")).
  { request_named. apply fetch_rejects with (dt := 300%N). reflexivity. }
  assert (HB : Answered flaky_env Src.loadData by_id (JObj [("id", JNum 2)])
                        (JObj [("user", JObj [("name", JStr "Grace")])])).
  { do 2 eexists. exists 20%N, 1%N. do 2 eexists. repeat split; reflexivity. }
  repeat (split; [assumption |]).
  exact (proj2 (overlapping_failure_and_answer initial HL HA HB)).
Defined.

(** A response with status 500 and a GraphQL error body is a success to
    the hook. *)
Example server_error_with_json_body :
  hook (snd (run failing_server_env (Lib.loadData ping JUndefined) fresh)) =
    {| loading := false; error := JNull; data := JNull |}.
Proof. reflexivity. Qed.
